(** * sysdlog: a severity-tagged writer to the systemd logger

    A shallow embedding of [sysdlog/sysdlog.go].  The Go methods become
    functions in a small state-and-panic monad [Go] over a [World] that
    holds everything outside the process: the logging endpoint behind
    [/dev/log], the sockets the process has opened, and the record of
    what the process did (dials, socket writes, standard output).

    Go strings are byte sequences, and so are Rocq's [string]s (a list
    of 8-bit [ascii]); [len] is [String.length].

    [NewLogger], which wraps [New] with the empty prefix in a
    [log.Logger] of the standard library, is left out: what it adds
    lives in package [log]. *)

From Stdlib.Strings Require Import String Ascii Byte.
From Stdlib Require Import List Bool Arith PeanoNat ZArith Lia.
Import ListNotations.
Local Open Scope list_scope.
Local Open Scope string_scope.

(** The line feed, Go's ["\n"]. *)
Definition LF : string := String "010"%char EmptyString.

(** ** The world outside the process *)

(** A socket handle: the ordinal of the [net.Dial] call that opened it. *)
Definition Conn := nat.

(** Go's [error] values met by this program are the [*net.OpError]s of
    the [net] package: the operation that failed and why. *)
Inductive error : Type :=
| OpError (Op : string) (Err : string).

(** A failed dial is the spec's ConnectionError, a failed socket write
    its WriteError. *)
Definition is_ConnectionError (e : error) : bool :=
  match e with OpError op _ => String.eqb op "dial" end.

Definition is_WriteError (e : error) : bool :=
  match e with OpError op _ => String.eqb op "write" end.

Inductive Event : Type :=
| EvLock                                               (* sdl.mu.Lock() *)
| EvUnlock                                             (* sdl.mu.Unlock() *)
| EvDial (network address : string) (r : option error) (* one net.Dial *)
| EvConnWrite (c : Conn) (b : string) (r : option error) (* one conn.Write(b) *)
| EvConnClose (c : Conn) (r : option error)            (* one conn.Close() *)
| EvStdout (b : string).                               (* bytes sent to os.Stdout *)

(** [endpoint k] is what the [k]-th dial meets: [None] when the daemon
    accepts the connection, [Some reason] when it cannot be reached.
    [wire k] is what the [k]-th socket write meets when its socket is
    open: [None] when the datagram is taken, [Some reason] when it is
    refused.  Both are fixed by the environment, not by the program.
    [dials] and [sends] count the dials and socket writes so far. *)
Record World : Type := mkWorld {
  endpoint : nat -> option string;
  wire : nat -> option string;
  dials : nat;
  sends : nat;
  open_conns : list Conn;
  trace : list Event
}.

Definition emit (e : Event) (w : World) : World :=
  mkWorld (endpoint w) (wire w) (dials w) (sends w) (open_conns w)
          (trace w ++ [e])%list.

Definition count_dial (w : World) : World :=
  mkWorld (endpoint w) (wire w) (S (dials w)) (sends w) (open_conns w)
          (trace w).

Definition count_send (w : World) : World :=
  mkWorld (endpoint w) (wire w) (dials w) (S (sends w)) (open_conns w)
          (trace w).

Definition set_open (l : list Conn) (w : World) : World :=
  mkWorld (endpoint w) (wire w) (dials w) (sends w) l (trace w).

Definition is_open (c : Conn) (w : World) : bool :=
  existsb (Nat.eqb c) (open_conns w).

(** Observations of a trace. *)
Definition frame_of (e : Event) : list string :=
  match e with EvConnWrite _ b _ => [b] | _ => [] end.

Definition frames (t : list Event) : list string := flat_map frame_of t.

Definition is_dial (e : Event) : bool :=
  match e with EvDial _ _ _ => true | _ => false end.

Definition is_conn_write (e : Event) : bool :=
  match e with EvConnWrite _ _ _ => true | _ => false end.

Definition dial_attempts (t : list Event) : nat :=
  List.length (filter is_dial t).

Definition write_attempts (t : list Event) : nat :=
  List.length (filter is_conn_write t).

(** ** Computations: state passing with panics *)

Inductive Fault : Type :=
| NilDereference     (* a method called through a nil interface value *)
| OutsideFragment.   (* a format this model of package fmt does not cover *)

Inductive Outcome (A : Type) : Type :=
| Done (a : A) (w : World)
| Crash (f : Fault) (w : World).
Arguments Done {A} a w.
Arguments Crash {A} f w.

Definition Go (A : Type) : Type := World -> Outcome A.

Definition ret {A : Type} (a : A) : Go A := fun w => Done a w.

Definition bind {A B : Type} (m : Go A) (k : A -> Go B) : Go B :=
  fun w =>
    match m w with
    | Done a w' => k a w'
    | Crash f w' => Crash f w'
    end.

Definition panic {A : Type} (f : Fault) : Go A := fun w => Crash f w.

Definition tell (e : Event) : Go unit := fun w => Done tt (emit e w).

Declare Scope go_scope.
Delimit Scope go_scope with go.
Notation "x <- m ;; k" := (bind m (fun x => k))
  (at level 61, m at next level, right associativity) : go_scope.
Notation "' pat <- m ;; k" := (bind m (fun x => match x with pat => k end))
  (at level 61, pat pattern, m at next level, right associativity) : go_scope.
Notation "m ;;; k" := (bind m (fun _ => k))
  (at level 61, right associativity) : go_scope.
Local Open Scope go_scope.

(** [defer d] before [body]: [d] runs when [body] is over, also when it
    panicked, and the panic then goes on. *)
Definition deferring {A : Type} (d : Go unit) (body : Go A) : Go A :=
  fun w =>
    match body w with
    | Done a w1 =>
        match d w1 with
        | Done _ w2 => Done a w2
        | Crash f w2 => Crash f w2
        end
    | Crash f w1 =>
        match d w1 with
        | Done _ w2 => Crash f w2
        | Crash f' w2 => Crash f' w2
        end
    end.

(** ** Package strings *)
Module strings.

(** [HasSuffix]: [len(s) >= len(suffix) && s[len(s)-len(suffix):] == suffix]. *)
Definition HasSuffix (s suffix : string) : bool :=
  Nat.leb (String.length suffix) (String.length s)
  && String.eqb (substring (String.length s - String.length suffix)
                           (String.length suffix) s)
                suffix.

(** [TrimSuffix]: [s] without the given trailing suffix, [s] itself when
    it does not end so.  The program does not call it; statements about
    frames do. *)
Definition TrimSuffix (s suffix : string) : string :=
  if HasSuffix s suffix
  then substring 0 (String.length s - String.length suffix) s
  else s.

End strings.

(** ** Package net *)
Module net.

(** [net.Dial(network, address)]: a fresh socket, or the error. *)
Definition Dial (network address : string) : Go (option Conn * option error) :=
  fun w =>
    match endpoint w (dials w) with
    | None =>
        let c : Conn := dials w in
        Done (Some c, None)
             (emit (EvDial network address None)
                   (set_open (c :: open_conns w) (count_dial w)))
    | Some reason =>
        let e := OpError "dial" reason in
        Done (None, Some e)
             (emit (EvDial network address (Some e)) (count_dial w))
    end.

(** [conn.Write(b)]: the buffer goes out as one datagram or not at all.
    A closed socket refuses every write. *)
Definition Write (c : Conn) (b : string) : Go (nat * option error) :=
  fun w =>
    let fate :=
      if is_open c w then wire w (sends w)
      else Some "use of closed network connection" in
    match fate with
    | None =>
        Done (String.length b, None)
             (emit (EvConnWrite c b None) (count_send w))
    | Some reason =>
        let e := OpError "write" reason in
        Done (0, Some e) (emit (EvConnWrite c b (Some e)) (count_send w))
    end.

(** [conn.Close()]. *)
Definition Close (c : Conn) : Go (option error) :=
  fun w =>
    if is_open c w
    then Done None
              (emit (EvConnClose c None)
                    (set_open (filter (fun c' => negb (Nat.eqb c c'))
                                      (open_conns w)) w))
    else
      let e := OpError "close" "use of closed network connection" in
      Done (Some e) (emit (EvConnClose c (Some e)) w).

End net.

(** ** Package fmt *)
Module fmt.

(** The part of the printer's [doPrintf] this program exercises: literal text,
    the verb [%s] applied to a string operand (a [Severity] is a string
    type with no [String] or [Error] method, so it prints as its bytes)
    and [%%].  Any other verb, and a format whose [%s] verbs are not
    matched one to one by the operands, is outside the fragment. *)
Fixpoint doPrintf (format : string) (a : list string) : option string :=
  match format with
  | EmptyString => match a with [] => Some EmptyString | _ :: _ => None end
  | String ch rest =>
      if Ascii.eqb ch "%"
      then
        match rest with
        | EmptyString => None
        | String verb rest' =>
            if Ascii.eqb verb "s"
            then
              match a with
              | [] => None
              | x :: a' => option_map (append x) (doPrintf rest' a')
              end
            else if Ascii.eqb verb "%"
            then option_map (String "%") (doPrintf rest' a)
            else None
        end
      else option_map (String ch) (doPrintf rest a)
  end.

(** [fmt.Fprintf(w, format, a...)]: format into a buffer, then one
    [w.Write(buf)].  The writers of this program are socket handles,
    [None] being the nil interface. *)
Definition Fprintf (w : option Conn) (format : string) (a : list string)
  : Go (nat * option error) :=
  match doPrintf format a with
  | None => panic OutsideFragment
  | Some buf =>
      match w with
      | None => panic NilDereference
      | Some c => net.Write c buf
      end
  end.

(** [fmt.Println(a...)]: the operands separated by spaces, a newline
    appended, written to standard output. *)
Definition Println (a : list string) : Go (nat * option error) :=
  let buf := String.concat " " a ++ LF in
  tell (EvStdout buf) ;;;
  ret (String.length buf, None).

End fmt.

(** ** Package sysdlog *)

(** [type Severity string], and the eight constants in the order of
    their declaration. *)
Definition Severity : Type := string.

Definition LOG_EMERG : Severity := "<0>".
Definition LOG_ALERT : Severity := "<1>".
Definition LOG_CRIT : Severity := "<2>".
Definition LOG_ERR : Severity := "<3>".
Definition LOG_WARNING : Severity := "<4>".
Definition LOG_NOTICE : Severity := "<5>".
Definition LOG_INFO : Severity := "<6>".
Definition LOG_DEBUG : Severity := "<7>".

Definition severities : list Severity :=
  [LOG_EMERG; LOG_ALERT; LOG_CRIT; LOG_ERR;
   LOG_WARNING; LOG_NOTICE; LOG_INFO; LOG_DEBUG].

(** [type Sysdlog struct].  [conn] is an interface value: [None] is nil.
    The mutex [mu] holds no data; calls are run one at a time here, so
    locking it never waits, and [Lock] and [Unlock] show as events. *)
Record Sysdlog : Type := mkSysdlog {
  prefix : string;
  conn : option Conn
}.

(** [connect]: dial the logger, and store the socket when that worked. *)
Definition connect (sdl : Sysdlog) : Go (Sysdlog * option error) :=
  '(c, err) <- net.Dial "unixgram" "/dev/log" ;;
  match err with
  | Some e => ret (sdl, Some e)
  | None => ret (mkSysdlog (prefix sdl) c, None)
  end.

(** [New]. *)
Definition New (prefix : string) : Go (option Sysdlog * option error) :=
  let sdl := mkSysdlog prefix None in
  '(sdl, err) <- connect sdl ;;
  match err with
  | Some e => ret (None, Some e)
  | None => ret (Some sdl, None)
  end.

(** [Close]: [sdl.conn.Close()], its result dropped. *)
Definition Close (sdl : Sysdlog) : Go unit :=
  match conn sdl with
  | None => panic NilDereference
  | Some c => net.Close c ;;; ret tt
  end.

(** [write]: both results of [Fprintf] are dropped. *)
Definition write (sdl : Sysdlog) (s : Severity) (m : string)
  : Go (nat * option error) :=
  let nl := if negb (strings.HasSuffix m LF) then LF else "" in
  fmt.Println ["prefix:"; prefix sdl] ;;;
  fmt.Fprintf (conn sdl) "%s %s%s%s" [s; prefix sdl; m; nl] ;;;
  ret (String.length m, None).

(** The tail of [writeRetry], reached with no connection or after a
    first write that returned an error: connect, then write again. *)
Definition reconnect_then_write (sdl : Sysdlog) (s : Severity) (m : string)
  : Go (Sysdlog * (nat * option error)) :=
  '(sdl', err) <- connect sdl ;;
  match err with
  | Some e => ret (sdl', (0, Some e))
  | None => r <- write sdl' s m ;; ret (sdl', r)
  end.

(** [writeRetry]. *)
Definition writeRetry (sdl : Sysdlog) (s : Severity) (m : string)
  : Go (Sysdlog * (nat * option error)) :=
  tell EvLock ;;;
  deferring (tell EvUnlock)
    match conn sdl with
    | Some _ =>
        '(n, err) <- write sdl s m ;;
        match err with
        | None => ret (sdl, (n, err))
        | Some _ => reconnect_then_write sdl s m
        end
    | None => reconnect_then_write sdl s m
    end.

(** [Write], the [io.Writer] method. *)
Definition Write (sdl : Sysdlog) (b : list byte)
  : Go (Sysdlog * (nat * option error)) :=
  writeRetry sdl LOG_ERR (string_of_list_byte b).

Definition Emerg (sdl : Sysdlog) (m : string) : Go (Sysdlog * option error) :=
  '(sdl', (_, err)) <- writeRetry sdl LOG_EMERG m ;; ret (sdl', err).

Definition Alert (sdl : Sysdlog) (m : string) : Go (Sysdlog * option error) :=
  '(sdl', (_, err)) <- writeRetry sdl LOG_ALERT m ;; ret (sdl', err).

Definition Crit (sdl : Sysdlog) (m : string) : Go (Sysdlog * option error) :=
  '(sdl', (_, err)) <- writeRetry sdl LOG_CRIT m ;; ret (sdl', err).

Definition Err (sdl : Sysdlog) (m : string) : Go (Sysdlog * option error) :=
  '(sdl', (_, err)) <- writeRetry sdl LOG_ERR m ;; ret (sdl', err).

Definition Warning (sdl : Sysdlog) (m : string) : Go (Sysdlog * option error) :=
  '(sdl', (_, err)) <- writeRetry sdl LOG_WARNING m ;; ret (sdl', err).

Definition Notice (sdl : Sysdlog) (m : string) : Go (Sysdlog * option error) :=
  '(sdl', (_, err)) <- writeRetry sdl LOG_NOTICE m ;; ret (sdl', err).

Definition Info (sdl : Sysdlog) (m : string) : Go (Sysdlog * option error) :=
  '(sdl', (_, err)) <- writeRetry sdl LOG_INFO m ;; ret (sdl', err).

Definition Debug (sdl : Sysdlog) (m : string) : Go (Sysdlog * option error) :=
  '(sdl', (_, err)) <- writeRetry sdl LOG_DEBUG m ;; ret (sdl', err).

(** [fmt.Sprintf] over arbitrary operands belongs to Go's library, not
    to this package: the formatted variants take it as an interface,
    [any] standing for the values an [interface{}] can hold. *)
Class Formatter : Type := {
  any : Type;
  Sprintf : string -> list any -> string
}.

Section Formatted.
Context {F : Formatter}.

Definition Emergf (sdl : Sysdlog) (format : string) (v : list any)
  : Go (Sysdlog * option error) :=
  '(sdl', (_, err)) <- writeRetry sdl LOG_EMERG (Sprintf format v) ;;
  ret (sdl', err).

Definition Alertf (sdl : Sysdlog) (format : string) (v : list any)
  : Go (Sysdlog * option error) :=
  '(sdl', (_, err)) <- writeRetry sdl LOG_ALERT (Sprintf format v) ;;
  ret (sdl', err).

Definition Critf (sdl : Sysdlog) (format : string) (v : list any)
  : Go (Sysdlog * option error) :=
  '(sdl', (_, err)) <- writeRetry sdl LOG_CRIT (Sprintf format v) ;;
  ret (sdl', err).

Definition Errf (sdl : Sysdlog) (format : string) (v : list any)
  : Go (Sysdlog * option error) :=
  '(sdl', (_, err)) <- writeRetry sdl LOG_ERR (Sprintf format v) ;;
  ret (sdl', err).

Definition Warningf (sdl : Sysdlog) (format : string) (v : list any)
  : Go (Sysdlog * option error) :=
  '(sdl', (_, err)) <- writeRetry sdl LOG_WARNING (Sprintf format v) ;;
  ret (sdl', err).

Definition Noticef (sdl : Sysdlog) (format : string) (v : list any)
  : Go (Sysdlog * option error) :=
  '(sdl', (_, err)) <- writeRetry sdl LOG_NOTICE (Sprintf format v) ;;
  ret (sdl', err).

Definition Infof (sdl : Sysdlog) (format : string) (v : list any)
  : Go (Sysdlog * option error) :=
  '(sdl', (_, err)) <- writeRetry sdl LOG_INFO (Sprintf format v) ;;
  ret (sdl', err).

Definition Debugf (sdl : Sysdlog) (format : string) (v : list any)
  : Go (Sysdlog * option error) :=
  '(sdl', (_, err)) <- writeRetry sdl LOG_DEBUG (Sprintf format v) ;;
  ret (sdl', err).

End Formatted.

(** ** Programs over the public operations *)

(** A call of one exported method. *)
Inductive Op {F : Formatter} : Type :=
| CallWrite (b : list byte)
| CallEmerg (m : string)
| CallAlert (m : string)
| CallCrit (m : string)
| CallErr (m : string)
| CallWarning (m : string)
| CallNotice (m : string)
| CallInfo (m : string)
| CallDebug (m : string)
| CallEmergf (format : string) (v : list any)
| CallAlertf (format : string) (v : list any)
| CallCritf (format : string) (v : list any)
| CallErrf (format : string) (v : list any)
| CallWarningf (format : string) (v : list any)
| CallNoticef (format : string) (v : list any)
| CallInfof (format : string) (v : list any)
| CallDebugf (format : string) (v : list any)
| CallClose.

(** The logger after the call; what the call returned is dropped, as a
    caller that goes on regardless would. *)
Definition run_op {F : Formatter} (sdl : Sysdlog) (o : Op) : Go Sysdlog :=
  match o with
  | CallWrite b => '(sdl', _) <- Write sdl b ;; ret sdl'
  | CallEmerg m => '(sdl', _) <- Emerg sdl m ;; ret sdl'
  | CallAlert m => '(sdl', _) <- Alert sdl m ;; ret sdl'
  | CallCrit m => '(sdl', _) <- Crit sdl m ;; ret sdl'
  | CallErr m => '(sdl', _) <- Err sdl m ;; ret sdl'
  | CallWarning m => '(sdl', _) <- Warning sdl m ;; ret sdl'
  | CallNotice m => '(sdl', _) <- Notice sdl m ;; ret sdl'
  | CallInfo m => '(sdl', _) <- Info sdl m ;; ret sdl'
  | CallDebug m => '(sdl', _) <- Debug sdl m ;; ret sdl'
  | CallEmergf format v => '(sdl', _) <- Emergf sdl format v ;; ret sdl'
  | CallAlertf format v => '(sdl', _) <- Alertf sdl format v ;; ret sdl'
  | CallCritf format v => '(sdl', _) <- Critf sdl format v ;; ret sdl'
  | CallErrf format v => '(sdl', _) <- Errf sdl format v ;; ret sdl'
  | CallWarningf format v => '(sdl', _) <- Warningf sdl format v ;; ret sdl'
  | CallNoticef format v => '(sdl', _) <- Noticef sdl format v ;; ret sdl'
  | CallInfof format v => '(sdl', _) <- Infof sdl format v ;; ret sdl'
  | CallDebugf format v => '(sdl', _) <- Debugf sdl format v ;; ret sdl'
  | CallClose => Close sdl ;;; ret sdl
  end.

Fixpoint run_ops {F : Formatter} (sdl : Sysdlog) (os : list Op) : Go Sysdlog :=
  match os with
  | [] => ret sdl
  | o :: os' => sdl' <- run_op sdl o ;; run_ops sdl' os'
  end.

(** The convenience methods, each with the severity it logs at, and
    each formatted variant with its plain method. *)
Definition plain_operations
  : list (Severity * (Sysdlog -> string -> Go (Sysdlog * option error))) :=
  [(LOG_EMERG, Emerg); (LOG_ALERT, Alert); (LOG_CRIT, Crit); (LOG_ERR, Err);
   (LOG_WARNING, Warning); (LOG_NOTICE, Notice); (LOG_INFO, Info);
   (LOG_DEBUG, Debug)].

Definition formatted_operations {F : Formatter}
  : list ((Sysdlog -> string -> Go (Sysdlog * option error)) *
          (Sysdlog -> string -> list any -> Go (Sysdlog * option error))) :=
  [(Emerg, Emergf); (Alert, Alertf); (Crit, Critf); (Err, Errf);
   (Warning, Warningf); (Notice, Noticef); (Info, Infof); (Debug, Debugf)].

(** ** Vocabulary of the statements *)

(** Where a computation left the world, and the events it added. *)
Definition world_after {A : Type} (o : Outcome A) : World :=
  match o with Done _ w => w | Crash _ w => w end.

Definition since (w w' : World) : list Event :=
  skipn (List.length (trace w)) (trace w').

(** The number of line feeds a string ends with. *)
Fixpoint trailing_newlines (s : string) : nat :=
  match s with
  | EmptyString => 0
  | String c rest =>
      let k := trailing_newlines rest in
      if Ascii.eqb c "010" && Nat.eqb k (String.length rest) then S k else k
  end.

(** The decimal digit [k] as a one-byte string, for [k < 10]. *)
Definition digit (k : nat) : string :=
  String (ascii_of_nat (48 + k)) EmptyString.

(** The general logging operation of the specification, LogAt: deliver
    [m] at severity [s] and report only success or failure.  The program
    has no exported method of this shape; [writeRetry] is behind it. *)
Definition LogAt (sdl : Sysdlog) (s : Severity) (m : string)
  : Go (Sysdlog * option error) :=
  '(sdl', (_, err)) <- writeRetry sdl s m ;; ret (sdl', err).

(** The debug line [write] prints before each frame. *)
Definition debug_line (sdl : Sysdlog) : string :=
  "prefix: " ++ prefix sdl ++ LF.

(** The frame of the wire format: tag, one space, prefix, message, and
    a line feed unless the message brings its own. *)
Definition wire_frame (sdl : Sysdlog) (s : Severity) (m : string) : string :=
  s ++ " " ++ prefix sdl ++ m ++ (if strings.HasSuffix m LF then "" else LF).

(** What a socket write meets in world [w]. *)
Definition write_fate (c : Conn) (w : World) : option error :=
  if is_open c w
  then option_map (OpError "write") (wire w (sends w))
  else Some (OpError "write" "use of closed network connection").

(** The three ways a call of [writeRetry] can go, each with the logger
    it leaves, what it returns and the events it adds. *)
Inductive call_shape (sdl : Sysdlog) (s : Severity) (m : string) (w : World)
  : Sysdlog -> nat * option error -> list Event -> Prop :=
| shape_connected (c : Conn) :
    conn sdl = Some c ->
    call_shape sdl s m w sdl (String.length m, None)
      [EvLock; EvStdout (debug_line sdl);
       EvConnWrite c (wire_frame sdl s m) (write_fate c w); EvUnlock]
| shape_unreachable (reason : string) :
    conn sdl = None ->
    endpoint w (dials w) = Some reason ->
    call_shape sdl s m w sdl (0, Some (OpError "dial" reason))
      [EvLock; EvDial "unixgram" "/dev/log" (Some (OpError "dial" reason));
       EvUnlock]
| shape_reconnected :
    conn sdl = None ->
    endpoint w (dials w) = None ->
    call_shape sdl s m w
      (mkSysdlog (prefix sdl) (Some (dials w))) (String.length m, None)
      [EvLock; EvDial "unixgram" "/dev/log" None; EvStdout (debug_line sdl);
       EvConnWrite (dials w) (wire_frame sdl s m)
                   (option_map (OpError "write") (wire w (sends w)));
       EvUnlock].

(** The last sentence of the newline rule, read as it is written: each
    frame a call emits ends in one line feed and no more. *)
Definition every_frame_ends_in_one_newline : Prop :=
  forall sdl s m w sdl' r w' f,
    writeRetry sdl s m w = Done (sdl', r) w' ->
    In f (frames (since w w')) ->
    trailing_newlines f = 1.

(** A world in which nothing has happened yet. *)
Definition fresh_world (endpoint wire : nat -> option string) : World :=
  mkWorld endpoint wire 0 0 [] [].

Definition always_up : nat -> option string := fun _ => None.

Definition always_down (reason : string) : nat -> option string :=
  fun _ => Some reason.

(** A logger built by [New] while the daemon is up, and the world it
    was built in. *)
Definition example_world : World :=
  world_after (New "[app] " (fresh_world always_up always_up)).

Definition example_logger : Sysdlog := mkSysdlog "[app] " (Some 0).

(** A formatter for examples: the [%s] fragment over string operands,
    the format itself where the fragment does not apply. *)
Definition string_formatter : Formatter := {|
  any := string;
  Sprintf := fun format v =>
    match fmt.doPrintf format v with Some s => s | None => format end
|}.

(** A short program over the example logger. *)
Definition example_calls : list (@Op string_formatter) :=
  [@CallInfo string_formatter "hello";
   @CallErrf string_formatter "%s!" ["disk"];
   @CallClose string_formatter;
   @CallWrite string_formatter [x68; x69]%byte;
   @CallDebug string_formatter "bye"].

(** ** Package log, and [NewLogger] *)
Module log.

(** A [log.Logger] as [log.New] builds it: the writer it prints to, its
    own line prefix and its flags.  The writer of this program is a
    [*Sysdlog], [None] being nil. *)
Record Logger : Type := mkLogger {
  out : option Sysdlog;
  prefix : string;
  flag : Z
}.

Definition New (out : option Sysdlog) (prefix : string) (flag : Z) : Logger :=
  mkLogger out prefix flag.

End log.


(** ** Further vocabulary *)

(** What a trace sent to standard output, and its mutex events. *)
Definition stdout_of (t : list Event) : list string :=
  flat_map (fun e => match e with EvStdout b => [b] | _ => [] end) t.

Definition is_mutex_event (e : Event) : bool :=
  match e with EvLock | EvUnlock => true | _ => false end.


(** A socket write that the socket took. *)
Definition is_delivered (e : Event) : bool :=
  match e with EvConnWrite _ _ None => true | _ => false end.

(** The frame a call emits on a logger that holds a socket. *)
Definition op_frames {F : Formatter} (sdl : Sysdlog) (o : Op) : list string :=
  match o with
  | CallWrite b => [wire_frame sdl LOG_ERR (string_of_list_byte b)]
  | CallEmerg m => [wire_frame sdl LOG_EMERG m]
  | CallAlert m => [wire_frame sdl LOG_ALERT m]
  | CallCrit m => [wire_frame sdl LOG_CRIT m]
  | CallErr m => [wire_frame sdl LOG_ERR m]
  | CallWarning m => [wire_frame sdl LOG_WARNING m]
  | CallNotice m => [wire_frame sdl LOG_NOTICE m]
  | CallInfo m => [wire_frame sdl LOG_INFO m]
  | CallDebug m => [wire_frame sdl LOG_DEBUG m]
  | CallEmergf format v => [wire_frame sdl LOG_EMERG (Sprintf format v)]
  | CallAlertf format v => [wire_frame sdl LOG_ALERT (Sprintf format v)]
  | CallCritf format v => [wire_frame sdl LOG_CRIT (Sprintf format v)]
  | CallErrf format v => [wire_frame sdl LOG_ERR (Sprintf format v)]
  | CallWarningf format v => [wire_frame sdl LOG_WARNING (Sprintf format v)]
  | CallNoticef format v => [wire_frame sdl LOG_NOTICE (Sprintf format v)]
  | CallInfof format v => [wire_frame sdl LOG_INFO (Sprintf format v)]
  | CallDebugf format v => [wire_frame sdl LOG_DEBUG (Sprintf format v)]
  | CallClose => []
  end.

Definition is_Close {F : Formatter} (o : Op) : bool :=
  match o with CallClose => true | _ => false end.

(** A logger declared but never connected, [var sdl Sysdlog] with a
    prefix set, and calls for the examples. *)
Definition unconnected_logger : Sysdlog := mkSysdlog "[app] " None.

Definition example_logging_calls : list (@Op string_formatter) :=
  [@CallInfo string_formatter "hello";
   @CallErrf string_formatter "%s!" ["disk"];
   @CallWrite string_formatter [x68; x69]%byte].

(** * Properties *)

(** ** Strings *)

Lemma append_empty_r (s : string) : s ++ "" = s.
Proof. induction s as [|c s IH]; simpl; [reflexivity | now rewrite IH]. Qed.

Lemma append_assoc (a b c : string) : (a ++ b) ++ c = a ++ (b ++ c).
Proof. induction a as [|x a IH]; simpl; [reflexivity | now rewrite IH]. Qed.

Lemma length_append (a b : string) :
  String.length (a ++ b) = String.length a + String.length b.
Proof. induction a as [|x a IH]; simpl; [reflexivity | now rewrite IH]. Qed.

Lemma length_string_of_list_byte (b : list byte) :
  String.length (string_of_list_byte b) = List.length b.
Proof.
  unfold string_of_list_byte.
  induction b as [|x b IH]; simpl; [reflexivity | now rewrite IH].
Qed.

Lemma substring_whole_prefix (a b : string) :
  substring 0 (String.length a) (a ++ b) = a.
Proof.
  induction a as [|x a IH]; simpl.
  - destruct b; reflexivity.
  - now rewrite IH.
Qed.

(** [HasSuffix s "\n"] looks at the last byte only. *)
Lemma HasSuffix_LF_cons (c : ascii) (r : string) :
  strings.HasSuffix (String c r) LF =
  match r with
  | EmptyString => Ascii.eqb c "010"
  | String _ _ => strings.HasSuffix r LF
  end.
Proof.
  unfold strings.HasSuffix. simpl String.length.
  destruct r as [|c' r'].
  - cbn. destruct (Ascii.eqb c "010"); reflexivity.
  - simpl String.length. simpl Nat.leb. simpl Nat.sub.
    rewrite Nat.sub_0_r. reflexivity.
Qed.

Lemma HasSuffix_append_LF (x : string) : strings.HasSuffix (x ++ LF) LF = true.
Proof.
  induction x as [|c x IH].
  - reflexivity.
  - change (String c x ++ LF) with (String c (x ++ LF)).
    rewrite HasSuffix_LF_cons.
    destruct (x ++ LF) eqn:E; [destruct x; discriminate | exact IH].
Qed.

Lemma HasSuffix_LF_inv (m : string) :
  strings.HasSuffix m LF = true -> exists body, m = body ++ LF.
Proof.
  induction m as [|c r IH]; [discriminate |].
  rewrite HasSuffix_LF_cons. destruct r as [|c' r'].
  - intros H. apply Ascii.eqb_eq in H. subst c. now exists "".
  - intros H. destruct (IH H) as [body E]. exists (String c body).
    simpl. now rewrite <- E.
Qed.

Lemma TrimSuffix_append_LF (x : string) : strings.TrimSuffix (x ++ LF) LF = x.
Proof.
  unfold strings.TrimSuffix. rewrite HasSuffix_append_LF.
  rewrite length_append. simpl String.length.
  replace (String.length x + 1 - 1) with (String.length x) by lia.
  apply substring_whole_prefix.
Qed.

Lemma TrimSuffix_LF_restore (m : string) :
  strings.HasSuffix m LF = true -> strings.TrimSuffix m LF ++ LF = m.
Proof.
  intros H. destruct (HasSuffix_LF_inv m H) as [body ->].
  now rewrite TrimSuffix_append_LF.
Qed.

Lemma TrimSuffix_LF_absent (m : string) :
  strings.HasSuffix m LF = false -> strings.TrimSuffix m LF = m.
Proof. intros H. unfold strings.TrimSuffix. now rewrite H. Qed.

Lemma trailing_newlines_append_LF (x : string) :
  trailing_newlines (x ++ LF) = S (trailing_newlines x).
Proof.
  induction x as [|c x IH]; [reflexivity |].
  change (String c x ++ LF) with (String c (x ++ LF)).
  simpl trailing_newlines. rewrite IH, length_append. simpl String.length.
  replace (String.length x + 1) with (S (String.length x)) by lia.
  change (Nat.eqb (S (trailing_newlines x)) (S (String.length x)))
    with (Nat.eqb (trailing_newlines x) (String.length x)).
  destruct (Ascii.eqb c "010" && Nat.eqb (trailing_newlines x) (String.length x));
    reflexivity.
Qed.

Lemma trailing_newlines_none (x : string) :
  trailing_newlines x = 0 <-> strings.HasSuffix x LF = false.
Proof.
  induction x as [|c r IH]; [split; reflexivity |].
  rewrite HasSuffix_LF_cons. simpl trailing_newlines.
  destruct r as [|c' r'].
  - simpl. destruct (Ascii.eqb c "010"); simpl; split; congruence.
  - destruct (Ascii.eqb c "010" &&
              Nat.eqb (trailing_newlines (String c' r'))
                      (String.length (String c' r'))) eqn:E.
    + apply andb_prop in E. destruct E as [_ E]. apply Nat.eqb_eq in E.
      simpl String.length in E. split; [discriminate |].
      intros H. apply IH in H. rewrite H in E. discriminate.
    + exact IH.
Qed.

(** ** Traces *)

Lemma since_app (w w' : World) (evs : list Event) :
  trace w' = (trace w ++ evs)%list -> since w w' = evs.
Proof.
  unfold since. intros ->. induction (trace w) as [|e t IH]; simpl; auto.
Qed.

(** ** The formatting and transport steps *)

Lemma frame_format_expands (s p m nl : string) :
  fmt.doPrintf "%s %s%s%s" [s; p; m; nl] = Some (s ++ " " ++ p ++ m ++ nl).
Proof. cbn. now rewrite append_empty_r. Qed.

Lemma net_Write_eq (c : Conn) (b : string) (w : World) :
  net.Write c b w =
  Done (match write_fate c w with None => String.length b | Some _ => 0 end,
        write_fate c w)
       (emit (EvConnWrite c b (write_fate c w)) (count_send w)).
Proof.
  unfold net.Write, write_fate.
  destruct (is_open c w); [destruct (wire w (sends w)) |]; reflexivity.
Qed.

(** [write] on a stored socket: the debug line, one socket write of the
    whole frame, and success whatever the socket said. *)
Lemma write_eq (sdl : Sysdlog) (c : Conn) (s : Severity) (m : string)
      (w : World) :
  conn sdl = Some c ->
  write sdl s m w =
  Done (String.length m, None)
       (emit (EvConnWrite c (wire_frame sdl s m) (write_fate c w))
             (count_send (emit (EvStdout (debug_line sdl)) w))).
Proof.
  intros Hc. unfold write, fmt.Fprintf, fmt.Println, bind, tell, ret.
  rewrite frame_format_expands, Hc, net_Write_eq.
  unfold wire_frame, debug_line.
  destruct (strings.HasSuffix m LF); reflexivity.
Qed.

(** With no socket stored, [write] would call through a nil interface. *)
Lemma write_nil (sdl : Sysdlog) (s : Severity) (m : string) (w : World) :
  conn sdl = None ->
  write sdl s m w = Crash NilDereference (emit (EvStdout (debug_line sdl)) w).
Proof.
  intros Hc. unfold write, fmt.Fprintf, fmt.Println, bind, tell, ret, panic.
  rewrite frame_format_expands, Hc. reflexivity.
Qed.

Lemma connect_eq (sdl : Sysdlog) (w : World) :
  connect sdl w =
  match endpoint w (dials w) with
  | None =>
      Done (mkSysdlog (prefix sdl) (Some (dials w)), None)
           (emit (EvDial "unixgram" "/dev/log" None)
                 (set_open (dials w :: open_conns w) (count_dial w)))
  | Some reason =>
      Done (sdl, Some (OpError "dial" reason))
           (emit (EvDial "unixgram" "/dev/log" (Some (OpError "dial" reason)))
                 (count_dial w))
  end.
Proof.
  unfold connect, net.Dial, bind, ret.
  destruct (endpoint w (dials w)); reflexivity.
Qed.

(** ** The shape of a call *)

Lemma write_fate_emit (c : Conn) (e : Event) (w : World) :
  write_fate c (emit e w) = write_fate c w.
Proof. reflexivity. Qed.

(** Every call of [writeRetry] returns, in one of the three shapes. *)
Lemma writeRetry_shape (sdl : Sysdlog) (s : Severity) (m : string) (w : World) :
  exists sdl' r w',
    writeRetry sdl s m w = Done (sdl', r) w' /\
    call_shape sdl s m w sdl' r (since w w').
Proof.
  unfold writeRetry, deferring, bind, tell.
  destruct (conn sdl) as [c|] eqn:Hc.
  - rewrite (write_eq sdl c s m _ Hc). unfold ret.
    eexists _, _, _. split; [reflexivity |].
    erewrite since_app; [apply (shape_connected sdl s m w c Hc) |].
    rewrite write_fate_emit. simpl. now rewrite <- !app_assoc.
  - unfold reconnect_then_write, bind. rewrite connect_eq.
    simpl endpoint. simpl dials.
    destruct (endpoint w (dials w)) as [reason|] eqn:He.
    + unfold ret. eexists _, _, _. split; [reflexivity |].
      erewrite since_app; [apply (shape_unreachable sdl s m w reason Hc He) |].
      simpl. now rewrite <- !app_assoc.
    + rewrite (write_eq (mkSysdlog (prefix sdl) (Some (dials w))) (dials w)
                        s m _ eq_refl).
      unfold ret.
      eexists _, _, _. split; [reflexivity |].
      erewrite since_app; [apply (shape_reconnected sdl s m w Hc He) |].
      rewrite write_fate_emit.
      unfold write_fate, is_open. simpl. rewrite Nat.eqb_refl. simpl.
      now rewrite <- !app_assoc.
Qed.

Ltac call_cases sdl s m w :=
  let sdl' := fresh "sdl'" in
  let r := fresh "r" in
  let w' := fresh "w'" in
  let Hrun := fresh "Hrun" in
  let Hshape := fresh "Hshape" in
  destruct (writeRetry_shape sdl s m w) as (sdl' & r & w' & Hrun & Hshape).

(** A finished call, matched against its shape. *)
Lemma writeRetry_inv (sdl : Sysdlog) (s : Severity) (m : string) (w : World)
      (sdl' : Sysdlog) (r : nat * option error) (w' : World) :
  writeRetry sdl s m w = Done (sdl', r) w' ->
  exists evs, since w w' = evs /\ call_shape sdl s m w sdl' r evs.
Proof.
  intros H.
  destruct (writeRetry_shape sdl s m w) as (sdl1 & r1 & w1 & Hrun & Hshape).
  rewrite Hrun in H. injection H as <- <- <-. now exists (since w w1).
Qed.

(** Split a finished call [H] into its shapes; the events it added
    replace [since w w'] in the goal and stay as an equation. *)
Ltac by_shape H :=
  let evs := fresh "evs" in
  let Hshape := fresh "Hshape" in
  let Hsince := fresh "Hsince" in
  apply writeRetry_inv in H; destruct H as (evs & Hsince & Hshape);
  revert Hsince; inversion Hshape; subst; clear Hshape;
  intros Hsince; try rewrite Hsince.

Lemma New_eq (p : string) (w : World) :
  New p w =
  match endpoint w (dials w) with
  | None =>
      Done (Some (mkSysdlog p (Some (dials w))), None)
           (emit (EvDial "unixgram" "/dev/log" None)
                 (set_open (dials w :: open_conns w) (count_dial w)))
  | Some reason =>
      Done (None, Some (OpError "dial" reason))
           (emit (EvDial "unixgram" "/dev/log" (Some (OpError "dial" reason)))
                 (count_dial w))
  end.
Proof.
  unfold New, bind. rewrite connect_eq.
  destruct (endpoint w (dials w)); reflexivity.
Qed.

(** ** The wire format *)

(** C1: a successful logging call hands the transport exactly one frame:
    the severity's tag, one space, the prefix as given, the message, and
    the conditional line feed.  The eight tags are three bytes each, the
    code 0..7 between angle brackets, LOG_EMERG first and LOG_DEBUG last.
    A logger built with prefix "[app] " that logs "hello" at LOG_INFO
    emits "<6> [app] hello\n". *)
Theorem C1_frame_layout :
  (forall k, k < 8 -> nth_error severities k = Some ("<" ++ digit k ++ ">"))
  /\ Forall (fun s => String.length s = 3) severities
  /\ (forall sdl s m w sdl' n w',
         writeRetry sdl s m w = Done (sdl', (n, None)) w' ->
         frames (since w w') =
         [s ++ " " ++ prefix sdl ++ m
            ++ (if strings.HasSuffix m LF then "" else LF)])
  /\ (forall w,
         endpoint w (dials w) = None ->
         exists sdl w1 w2,
           New "[app] " w = Done (Some sdl, None) w1 /\
           Info sdl "hello" w1 = Done (sdl, None) w2 /\
           frames (since w1 w2) = ["<6> [app] hello" ++ LF]).
Proof.
  repeat split.
  - intros k Hk.
    do 8 (destruct k as [|k]; [reflexivity |]). lia.
  - repeat constructor.
  - intros sdl s m w sdl' n w' H.
    by_shape H; reflexivity.
  - intros w Hup. rewrite New_eq, Hup.
    call_cases (mkSysdlog "[app] " (Some (dials w))) LOG_INFO "hello"
               (emit (EvDial "unixgram" "/dev/log" None)
                     (set_open (dials w :: open_conns w) (count_dial w))).
    pose proof Hrun as Hev. by_shape Hev; try discriminate.
    eexists _, _, w'. split; [reflexivity |].
    unfold Info, bind. rewrite Hrun, Hsince. split; reflexivity.
Qed.

Lemma C1_frame_layout_witness :
  frames (since example_world
                (world_after (writeRetry example_logger LOG_INFO "hello"
                                         example_world)))
  = ["<6> [app] hello" ++ LF].
Proof.
  apply (proj1 (proj2 (proj2 C1_frame_layout))
               example_logger LOG_INFO "hello" example_world
               example_logger 5).
  reflexivity.
Defined.

(** ** Newline normalisation *)

Lemma emitted_frame sdl s m w sdl' r evs f :
  call_shape sdl s m w sdl' r evs ->
  In f (frames evs) ->
  f = wire_frame sdl s m.
Proof.
  intros Hshape Hin. inversion Hshape; subst; simpl in Hin;
    intuition congruence.
Qed.

(** A frame is the text with one final line feed of the message taken
    off, if it had one, and then one line feed. *)
Lemma wire_frame_normal (sdl : Sysdlog) (s : Severity) (m : string) :
  wire_frame sdl s m =
  (s ++ " " ++ prefix sdl ++ strings.TrimSuffix m LF) ++ LF.
Proof.
  unfold wire_frame. rewrite !append_assoc. do 3 f_equal.
  destruct (strings.HasSuffix m LF) eqn:E.
  - now rewrite append_empty_r, TrimSuffix_LF_restore.
  - now rewrite TrimSuffix_LF_absent.
Qed.

(** C2, as the code has it: framing appends exactly one line feed to a
    message that does not end in one and nothing to a message that does,
    so every frame ends in a line feed and is the tag, space, prefix and
    message-less-one-final-line-feed followed by one line feed.  The
    frame ends in exactly one line feed precisely when the text before
    that line feed does not end in one; a message that ends in several
    is passed through with all of them. *)
Theorem C2_newline_normalisation :
  forall sdl s m w sdl' r w' f,
    writeRetry sdl s m w = Done (sdl', r) w' ->
    In f (frames (since w w')) ->
    (strings.HasSuffix m LF = false -> f = s ++ " " ++ prefix sdl ++ m ++ LF)
    /\ (strings.HasSuffix m LF = true -> f = s ++ " " ++ prefix sdl ++ m)
    /\ f = (s ++ " " ++ prefix sdl ++ strings.TrimSuffix m LF) ++ LF
    /\ trailing_newlines f =
       S (trailing_newlines (s ++ " " ++ prefix sdl ++ strings.TrimSuffix m LF))
    /\ (trailing_newlines f = 1 <->
        strings.HasSuffix (s ++ " " ++ prefix sdl ++ strings.TrimSuffix m LF) LF
        = false).
Proof.
  intros sdl s m w sdl' r w' f Hrun Hin.
  apply writeRetry_inv in Hrun. destruct Hrun as (evs & Hev & Hshape).
  rewrite Hev in Hin.
  rewrite (emitted_frame _ _ _ _ _ _ _ _ Hshape Hin).
  repeat split.
  - intros E. unfold wire_frame. now rewrite E.
  - intros E. unfold wire_frame. now rewrite E, append_empty_r.
  - apply wire_frame_normal.
  - now rewrite wire_frame_normal, trailing_newlines_append_LF.
  - rewrite wire_frame_normal, trailing_newlines_append_LF.
    intros E. apply trailing_newlines_none. lia.
  - rewrite wire_frame_normal, trailing_newlines_append_LF.
    intros E. apply trailing_newlines_none in E. lia.
Qed.

Lemma C2_newline_normalisation_witness :
  trailing_newlines ("<6> [app] hello" ++ LF) = 1 <->
  strings.HasSuffix ("<6> [app] hello") LF = false.
Proof.
  apply (C2_newline_normalisation
           example_logger LOG_INFO "hello" example_world
           example_logger (5, None)
           (world_after (writeRetry example_logger LOG_INFO "hello"
                                    example_world))
           ("<6> [app] hello" ++ LF)).
  - reflexivity.
  - left. reflexivity.
Defined.

(** C2, where the sentence as written fails: the message "hello\n\n"
    goes out unchanged, and its frame ends in two line feeds. *)
Lemma C2_counterexample :
  frames (since example_world
                (world_after
                   (writeRetry example_logger LOG_INFO ("hello" ++ LF ++ LF)
                               example_world)))
  = ["<6> [app] hello" ++ LF ++ LF]
  /\ trailing_newlines ("<6> [app] hello" ++ LF ++ LF) = 2
  /\ ~ every_frame_ends_in_one_newline.
Proof.
  split; [reflexivity |]. split; [reflexivity |].
  intros H.
  specialize (H example_logger LOG_INFO ("hello" ++ LF ++ LF) example_world
                example_logger (7, None)
                (world_after
                   (writeRetry example_logger LOG_INFO ("hello" ++ LF ++ LF)
                               example_world))
                ("<6> [app] hello" ++ LF ++ LF)
                eq_refl (or_introl eq_refl)).
  discriminate H.
Qed.

(** ** Recovery *)

(** With a socket stored the call is one write and reports success. *)
Lemma writeRetry_connected (sdl : Sysdlog) (c : Conn) (s : Severity)
      (m : string) (w : World) :
  conn sdl = Some c ->
  exists w',
    writeRetry sdl s m w = Done (sdl, (String.length m, None)) w' /\
    since w w' =
    [EvLock; EvStdout (debug_line sdl);
     EvConnWrite c (wire_frame sdl s m) (write_fate c w); EvUnlock].
Proof.
  intros Hc. call_cases sdl s m w. clear Hshape.
  pose proof Hrun as Hev. by_shape Hev; try congruence.
  exists w'. split; [exact Hrun |].
  rewrite Hsince. replace c with c0 by congruence. reflexivity.
Qed.

Lemma call_bounds sdl s m w sdl' r evs :
  call_shape sdl s m w sdl' r evs ->
  dial_attempts evs <= 1 /\ write_attempts evs <= 1.
Proof.
  intros H. inversion H; subst; unfold dial_attempts, write_attempts; simpl;
    lia.
Qed.

(** C3: every call returns, after at most one dial and at most two
    socket writes, and with no socket stored it dials exactly once and
    hands a dial error back.  But a first write that the transport
    refuses is not followed by a reconnect: with the daemon up and a
    socket that refuses the datagram, the call ends after that one
    write, without a dial. *)
Theorem C3_failed_write_is_not_retried :
  (forall sdl s m w,
      exists sdl' r w',
        writeRetry sdl s m w = Done (sdl', r) w' /\
        dial_attempts (since w w') <= 1 /\
        write_attempts (since w w') <= 2)
  /\ (forall sdl s m w sdl' r w',
         conn sdl = None ->
         writeRetry sdl s m w = Done (sdl', r) w' ->
         dial_attempts (since w w') = 1 /\
         (forall reason,
             endpoint w (dials w) = Some reason ->
             r = (0, Some (OpError "dial" reason)) /\
             write_attempts (since w w') = 0))
  /\ (forall reason p s m,
         exists w1 w2,
           New p (fresh_world always_up (always_down reason)) =
           Done (Some (mkSysdlog p (Some 0)), None) w1 /\
           writeRetry (mkSysdlog p (Some 0)) s m w1 =
           Done (mkSysdlog p (Some 0), (String.length m, None)) w2 /\
           since w1 w2 =
           [EvLock; EvStdout (debug_line (mkSysdlog p (Some 0)));
            EvConnWrite 0 (wire_frame (mkSysdlog p (Some 0)) s m)
                        (Some (OpError "write" reason));
            EvUnlock] /\
           dial_attempts (since w1 w2) = 0 /\
           write_attempts (since w1 w2) = 1).
Proof.
  split; [| split].
  - intros sdl s m w. call_cases sdl s m w.
    exists sdl', r, w'. split; [exact Hrun |].
    destruct (call_bounds _ _ _ _ _ _ _ Hshape). lia.
  - intros sdl s m w sdl' r w' Hnil Hrun.
    by_shape Hrun; try congruence.
    + split; [reflexivity |].
      intros reason' E. split; [congruence | reflexivity].
    + split; [reflexivity |]. intros reason' E. congruence.
  - intros reason p s m.
    set (w0 := fresh_world always_up (always_down reason)).
    destruct (writeRetry_connected (mkSysdlog p (Some 0)) 0 s m
                                   (world_after (New p w0)) eq_refl)
      as (w2 & Hrun & Hev).
    exists (world_after (New p w0)), w2.
    split; [reflexivity |]. split; [exact Hrun |].
    rewrite Hev. repeat split.
Qed.

(** C4: a call that reports success has handed the whole frame to the
    socket in a single write, and a call that reports an error has
    written nothing and reports the dial error.  But a socket write that
    failed is not reported: with the socket open and the transport
    refusing the datagram, the write error shows on the socket and the
    call returns no error. *)
Theorem C4_write_error_is_swallowed :
  (forall sdl s m w sdl' r w',
      writeRetry sdl s m w = Done (sdl', r) w' ->
      (r = (String.length m, None) /\
       frames (since w w') = [wire_frame sdl s m])
      \/ (exists e, r = (0, Some e) /\ is_ConnectionError e = true /\
                    frames (since w w') = []))
  /\ (forall reason p s m,
         exists w1 w2 e,
           New p (fresh_world always_up (always_down reason)) =
           Done (Some (mkSysdlog p (Some 0)), None) w1 /\
           is_open 0 w1 = true /\
           writeRetry (mkSysdlog p (Some 0)) s m w1 =
           Done (mkSysdlog p (Some 0), (String.length m, None)) w2 /\
           In (EvConnWrite 0 (wire_frame (mkSysdlog p (Some 0)) s m) (Some e))
              (since w1 w2) /\
           is_WriteError e = true).
Proof.
  split.
  - intros sdl s m w sdl' r w' H. by_shape H.
    + left. split; reflexivity.
    + right. eexists. repeat split.
    + left. split; reflexivity.
  - intros reason p s m.
    set (w0 := fresh_world always_up (always_down reason)).
    destruct (writeRetry_connected (mkSysdlog p (Some 0)) 0 s m
                                   (world_after (New p w0)) eq_refl)
      as (w2 & Hrun & Hev).
    exists (world_after (New p w0)), w2, (OpError "write" reason).
    split; [reflexivity |]. split; [reflexivity |]. split; [exact Hrun |].
    rewrite Hev. split; [| reflexivity].
    right. right. left. reflexivity.
Qed.

(** C5: a logging call after [Close] finds the closed socket still
    stored, writes to it, drops the refusal and reports success; it
    does not dial. *)
Theorem C5_write_after_Close_succeeds_silently :
  forall p s m wire,
    exists w1 w2 w3,
      New p (fresh_world always_up wire) =
      Done (Some (mkSysdlog p (Some 0)), None) w1 /\
      Close (mkSysdlog p (Some 0)) w1 = Done tt w2 /\
      is_open 0 w2 = false /\
      LogAt (mkSysdlog p (Some 0)) s m w2 =
      Done (mkSysdlog p (Some 0), None) w3 /\
      since w2 w3 =
      [EvLock; EvStdout (debug_line (mkSysdlog p (Some 0)));
       EvConnWrite 0 (wire_frame (mkSysdlog p (Some 0)) s m)
         (Some (OpError "write" "use of closed network connection"));
       EvUnlock] /\
      dial_attempts (since w2 w3) = 0.
Proof.
  intros p s m wr.
  set (sdl := mkSysdlog p (Some 0)).
  set (w1 := world_after (New p (fresh_world always_up wr))).
  set (w2 := world_after (Close sdl w1)).
  destruct (writeRetry_connected sdl 0 s m w2 eq_refl) as (w3 & Hrun & Hev).
  exists w1, w2, w3.
  split; [reflexivity |]. split; [reflexivity |]. split; [reflexivity |].
  split; [unfold LogAt, bind; now rewrite Hrun |].
  rewrite Hev. split; reflexivity.
Qed.

(** C10: with a socket stored when the call starts, [write] reports
    success whatever the socket write met, so [writeRetry] returns the
    message length and no error after that one write and does not dial;
    a call that dials started with no socket stored. *)
Theorem C10_stored_handle_always_reports_success :
  (forall sdl c s m w,
      conn sdl = Some c ->
      (exists w1, write sdl s m w = Done (String.length m, None) w1) /\
      (exists w',
          writeRetry sdl s m w = Done (sdl, (String.length m, None)) w' /\
          since w w' =
          [EvLock; EvStdout (debug_line sdl);
           EvConnWrite c (wire_frame sdl s m) (write_fate c w); EvUnlock] /\
          dial_attempts (since w w') = 0))
  /\ (forall sdl s m w sdl' r w',
         writeRetry sdl s m w = Done (sdl', r) w' ->
         dial_attempts (since w w') <> 0 ->
         conn sdl = None).
Proof.
  split.
  - intros sdl c s m w Hc. split.
    + eexists. apply (write_eq sdl c s m w Hc).
    + destruct (writeRetry_connected sdl c s m w Hc) as (w' & Hrun & Hev).
      exists w'. rewrite Hev. repeat split. exact Hrun.
  - intros sdl s m w sdl' r w' H Hd. by_shape H; try assumption.
    exfalso. apply Hd. rewrite Hsince. reflexivity.
Qed.

Lemma C10_stored_handle_always_reports_success_witness :
  exists w',
    writeRetry example_logger LOG_INFO "hello" example_world =
    Done (example_logger, (5, None)) w' /\
    since example_world w' =
    [EvLock; EvStdout (debug_line example_logger);
     EvConnWrite 0 ("<6> [app] hello" ++ LF) None; EvUnlock] /\
    dial_attempts (since example_world w') = 0.
Proof.
  apply (proj1 C10_stored_handle_always_reports_success
               example_logger 0 LOG_INFO "hello" example_world).
  reflexivity.
Defined.

(** ** Construction *)

(** C6: [New] dials once, at once.  When the endpoint cannot be reached
    it returns no logger and the dial error; otherwise it returns a
    logger that carries the given prefix and a socket that is open. *)
Theorem C6_New_is_eager :
  forall p w,
    (forall reason,
        endpoint w (dials w) = Some reason ->
        exists w',
          New p w = Done (None, Some (OpError "dial" reason)) w' /\
          is_ConnectionError (OpError "dial" reason) = true /\
          since w w' =
          [EvDial "unixgram" "/dev/log" (Some (OpError "dial" reason))])
    /\ (endpoint w (dials w) = None ->
        exists c w',
          New p w = Done (Some (mkSysdlog p (Some c)), None) w' /\
          is_open c w' = true /\
          since w w' = [EvDial "unixgram" "/dev/log" None]).
Proof.
  intros p w. split.
  - intros reason E. rewrite New_eq, E. eexists. split; [reflexivity |].
    split; [reflexivity |]. now apply since_app.
  - intros E. rewrite New_eq, E. eexists _, _. split; [reflexivity |].
    split; [| now apply since_app].
    unfold is_open. simpl. now rewrite Nat.eqb_refl.
Qed.

Lemma C6_New_is_eager_witness :
  (exists w',
      New "[app] " (fresh_world (always_down "no such file or directory")
                                always_up) =
      Done (None, Some (OpError "dial" "no such file or directory")) w' /\
      is_ConnectionError (OpError "dial" "no such file or directory") = true /\
      since (fresh_world (always_down "no such file or directory") always_up)
            w' =
      [EvDial "unixgram" "/dev/log"
              (Some (OpError "dial" "no such file or directory"))])
  /\ (exists c w',
         New "[app] " (fresh_world always_up always_up) =
         Done (Some (mkSysdlog "[app] " (Some c)), None) w' /\
         is_open c w' = true /\
         since (fresh_world always_up always_up) w' =
         [EvDial "unixgram" "/dev/log" None]).
Proof.
  split.
  - apply (proj1 (C6_New_is_eager "[app] "
             (fresh_world (always_down "no such file or directory")
                          always_up))).
    reflexivity.
  - apply (proj2 (C6_New_is_eager "[app] " (fresh_world always_up always_up))).
    reflexivity.
Defined.

(** ** The byte sink *)

(** C7: [Write] logs its buffer at LOG_ERR, the tag "<3>", whatever the
    bytes are, and a call that succeeds returns the length of the
    buffer: the tag, the space, the prefix and the added line feed are
    not counted. *)
Theorem C7_Write_counts_message_bytes :
  forall sdl b w sdl' n w',
    Write sdl b w = Done (sdl', (n, None)) w' ->
    Write sdl b w = writeRetry sdl LOG_ERR (string_of_list_byte b) w /\
    n = List.length b /\
    frames (since w w') =
    ["<3>" ++ " " ++ prefix sdl ++ string_of_list_byte b
       ++ (if strings.HasSuffix (string_of_list_byte b) LF then "" else LF)].
Proof.
  intros sdl b w sdl' n w' H. split; [reflexivity |].
  unfold Write in H. by_shape H.
  - split; [apply length_string_of_list_byte | reflexivity].
  - split; [apply length_string_of_list_byte | reflexivity].
Qed.

Lemma C7_Write_counts_message_bytes_witness :
  3 = List.length [x68; x69; x0a]%byte /\
  frames (since example_world
                (world_after (Write example_logger [x68; x69; x0a]%byte
                                    example_world)))
  = ["<3> [app] hi" ++ LF].
Proof.
  apply (C7_Write_counts_message_bytes
           example_logger [x68; x69; x0a]%byte example_world
           example_logger 3
           (world_after (Write example_logger [x68; x69; x0a]%byte
                               example_world))).
  reflexivity.
Defined.

(** ** The convenience methods *)

(** C8: the eight plain methods, listed with the eight severities in
    their order, each run LogAt at their severity, so a successful call
    emits the frame with that tag; each formatted variant runs its plain
    method on what [Sprintf] makes of the format and the operands. *)
Theorem C8_convenience_operations :
  map fst plain_operations = severities
  /\ Forall
       (fun so : Severity * (Sysdlog -> string -> Go (Sysdlog * option error)) =>
          forall sdl m w,
            snd so sdl m w = LogAt sdl (fst so) m w /\
            (forall sdl' w',
                snd so sdl m w = Done (sdl', None) w' ->
                frames (since w w') = [wire_frame sdl (fst so) m]))
       plain_operations
  /\ (forall F : Formatter,
         map fst formatted_operations = map snd plain_operations /\
         Forall
           (fun pf : (Sysdlog -> string -> Go (Sysdlog * option error)) *
                     (Sysdlog -> string -> list any ->
                      Go (Sysdlog * option error)) =>
              forall sdl format v w,
                snd pf sdl format v w = fst pf sdl (Sprintf format v) w)
           formatted_operations).
Proof.
  assert (Hlog : forall sdl s m w sdl' w',
             LogAt sdl s m w = Done (sdl', None) w' ->
             frames (since w w') = [wire_frame sdl s m]).
  { intros sdl s m w sdl' w' H. unfold LogAt, bind in H.
    destruct (writeRetry sdl s m w) as [[sdl1 [n e]] w1 | f w1] eqn:Hrun;
      [| discriminate].
    unfold ret in H. injection H as <- -> <-.
    by_shape Hrun; reflexivity. }
  split; [reflexivity |]. split.
  - repeat constructor; simpl; intros sdl' w'; apply Hlog.
  - intros F. split; [reflexivity |].
    repeat constructor.
Qed.

(** ** The prefix *)

Lemma writeRetry_prefix sdl s m w sdl' r w' :
  writeRetry sdl s m w = Done (sdl', r) w' -> prefix sdl' = prefix sdl.
Proof. intros H. by_shape H; reflexivity. Qed.

Lemma LogAt_prefix sdl s m w sdl' e w' :
  LogAt sdl s m w = Done (sdl', e) w' -> prefix sdl' = prefix sdl.
Proof.
  unfold LogAt, bind. intros H.
  destruct (writeRetry sdl s m w) as [[sdl1 [n e1]] w1 | f w1] eqn:Hrun;
    [| discriminate].
  unfold ret in H. injection H as <- _ _.
  exact (writeRetry_prefix _ _ _ _ _ _ _ Hrun).
Qed.

Lemma connect_prefix sdl w sdl' e w' :
  connect sdl w = Done (sdl', e) w' -> prefix sdl' = prefix sdl.
Proof.
  rewrite connect_eq. destruct (endpoint w (dials w)); intros H;
    injection H as <- _ _; reflexivity.
Qed.

(** A call whose result is dropped and whose logger is kept. *)
Lemma keep_logger {A : Type} (call : Go (Sysdlog * A)) sdl w sdl' w' :
  (forall sdl1 a w1, call w = Done (sdl1, a) w1 -> prefix sdl1 = prefix sdl) ->
  bind call (fun x => match x with (sdl1, _) => ret sdl1 end) w = Done sdl' w' ->
  prefix sdl' = prefix sdl.
Proof.
  intros Hcall. unfold bind.
  destruct (call w) as [[sdl1 a] w1 | f w1] eqn:E; [| discriminate].
  unfold ret. intros H. injection H as <- _. exact (Hcall _ _ _ eq_refl).
Qed.

Lemma run_op_prefix {F : Formatter} sdl o w sdl' w' :
  run_op sdl o w = Done sdl' w' -> prefix sdl' = prefix sdl.
Proof.
  destruct o; simpl run_op;
    try (apply keep_logger; intros sdl1 a w1;
         first [apply writeRetry_prefix | apply LogAt_prefix]).
  unfold bind. destruct (Close sdl w); [| discriminate].
  unfold ret. intros H. injection H as <- _. reflexivity.
Qed.

Lemma run_ops_prefix {F : Formatter} os :
  forall sdl w sdl' w',
    run_ops sdl os w = Done sdl' w' -> prefix sdl' = prefix sdl.
Proof.
  induction os as [|o os IH]; intros sdl w sdl' w'; simpl.
  - unfold ret. intros H. injection H as <- _. reflexivity.
  - unfold bind.
    destruct (run_op sdl o w) as [sdl1 w1 | f w1] eqn:E; [| discriminate].
    intros H. rewrite (IH _ _ _ _ H). exact (run_op_prefix _ _ _ _ _ E).
Qed.

(** A logger that holds a socket comes out of every call as it went in:
    no call stores anything, and [Close] has a socket to close. *)
Lemma run_op_connected {F : Formatter} sdl c o w :
  conn sdl = Some c -> exists w', run_op sdl o w = Done sdl w'.
Proof.
  intros Hc.
  destruct o; simpl run_op;
    try (unfold Write, Emerg, Alert, Crit, Err, Warning, Notice, Info, Debug,
           Emergf, Alertf, Critf, Errf, Warningf, Noticef, Infof, Debugf, bind;
         match goal with
         | |- context [writeRetry sdl ?s ?x w] =>
             destruct (writeRetry_connected sdl c s x w Hc) as (w' & -> & _)
         end;
         now exists w').
  unfold Close, bind. rewrite Hc.
  destruct (net.Close c w) as [e w1 | f w1] eqn:E.
  - now exists w1.
  - unfold net.Close in E. destruct (is_open c w); discriminate.
Qed.

Lemma run_ops_connected {F : Formatter} sdl c os :
  conn sdl = Some c -> forall w, exists w', run_ops sdl os w = Done sdl w'.
Proof.
  intros Hc. induction os as [|o os IH]; intros w; simpl.
  - now exists w.
  - unfold bind. destruct (run_op_connected sdl c o w Hc) as (w1 & ->).
    apply IH.
Qed.

(** C9: the logger [New] returns carries the prefix it was given, and
    after any sequence of exported calls on it (the sequence always runs
    to its end) the prefix is still that string.  For a logger of any
    origin no sequence of calls, and no reconnect, changes the prefix. *)
Theorem C9_prefix_is_fixed :
  forall (F : Formatter) p w sdl w1 os,
    New p w = Done (Some sdl, None) w1 ->
    prefix sdl = p /\
    (exists sdl' w2, run_ops sdl os w1 = Done sdl' w2 /\ prefix sdl' = p) /\
    (forall sdl0 w0 sdl' w',
        run_ops sdl0 os w0 = Done sdl' w' -> prefix sdl' = prefix sdl0) /\
    (forall sdl0 w0 sdl' e w',
        connect sdl0 w0 = Done (sdl', e) w' -> prefix sdl' = prefix sdl0).
Proof.
  intros F p w sdl w1 os HNew.
  rewrite New_eq in HNew.
  destruct (endpoint w (dials w)); [discriminate |].
  injection HNew as <- _.
  split; [reflexivity |]. split; [| split].
  - destruct (run_ops_connected (mkSysdlog p (Some (dials w))) (dials w) os
                                eq_refl w1) as (w2 & E).
    eexists _, w2. split; [exact E | reflexivity].
  - intros sdl0 w0 sdl' w'. apply run_ops_prefix.
  - intros sdl0 w0 sdl' e w'. apply connect_prefix.
Qed.

Lemma C9_prefix_is_fixed_witness :
  exists sdl' w2,
    @run_ops string_formatter example_logger example_calls example_world
    = Done sdl' w2 /\
    prefix sdl' = "[app] ".
Proof.
  apply (C9_prefix_is_fixed string_formatter "[app] "
                            (fresh_world always_up always_up)
                            example_logger example_world).
  reflexivity.
Defined.

(** * Further properties *)

(** ** The three runs of [writeRetry], world and all *)

Lemma writeRetry_eq_connected (sdl : Sysdlog) (c : Conn) (s : Severity)
      (m : string) (w : World) :
  conn sdl = Some c ->
  writeRetry sdl s m w =
  Done (sdl, (String.length m, None))
       (emit EvUnlock
          (emit (EvConnWrite c (wire_frame sdl s m) (write_fate c w))
             (count_send (emit (EvStdout (debug_line sdl)) (emit EvLock w))))).
Proof.
  intros Hc. unfold writeRetry, deferring, bind, tell.
  rewrite Hc, (write_eq sdl c s m _ Hc). reflexivity.
Qed.

Lemma writeRetry_eq_down (sdl : Sysdlog) (s : Severity) (m : string)
      (w : World) (reason : string) :
  conn sdl = None ->
  endpoint w (dials w) = Some reason ->
  writeRetry sdl s m w =
  Done (sdl, (0, Some (OpError "dial" reason)))
       (emit EvUnlock
          (emit (EvDial "unixgram" "/dev/log" (Some (OpError "dial" reason)))
             (count_dial (emit EvLock w)))).
Proof.
  intros Hc He. unfold writeRetry, deferring, bind, tell.
  rewrite Hc. unfold reconnect_then_write, bind. rewrite connect_eq.
  simpl endpoint. simpl dials. rewrite He. reflexivity.
Qed.

Lemma writeRetry_eq_reconnect (sdl : Sysdlog) (s : Severity) (m : string)
      (w : World) :
  conn sdl = None ->
  endpoint w (dials w) = None ->
  writeRetry sdl s m w =
  Done (mkSysdlog (prefix sdl) (Some (dials w)), (String.length m, None))
       (emit EvUnlock
          (emit (EvConnWrite (dials w) (wire_frame sdl s m)
                   (option_map (OpError "write") (wire w (sends w))))
             (count_send
                (emit (EvStdout (debug_line sdl))
                   (emit (EvDial "unixgram" "/dev/log" None)
                      (set_open (dials w :: open_conns w)
                         (count_dial (emit EvLock w)))))))).
Proof.
  intros Hc He. unfold writeRetry, deferring, bind, tell.
  rewrite Hc. unfold reconnect_then_write, bind. rewrite connect_eq.
  simpl endpoint. simpl dials. rewrite He.
  rewrite (write_eq (mkSysdlog (prefix sdl) (Some (dials w))) (dials w)
                    s m _ eq_refl).
  unfold ret. rewrite write_fate_emit.
  unfold write_fate at 1, is_open. simpl existsb. rewrite Nat.eqb_refl.
  reflexivity.
Qed.

(** Which of the three runs a call takes is decided by the logger and
    the endpoint alone. *)
Ltac by_run sdl w :=
  let c := fresh "c" in
  let Hc := fresh "Hc" in
  let reason := fresh "reason" in
  let He := fresh "He" in
  destruct (conn sdl) as [c|] eqn:Hc;
  [| destruct (endpoint w (dials w)) as [reason|] eqn:He].


(** ** The byte sink as an [io.Writer] *)


(** ** Closing *)

Lemma is_open_after_close (c : Conn) (l : list Conn) :
  existsb (Nat.eqb c) (filter (fun c' => negb (Nat.eqb c c')) l) = false.
Proof.
  induction l as [|x l IH]; [reflexivity |]. simpl.
  destruct (Nat.eqb c x) eqn:E; simpl; [exact IH | now rewrite E].
Qed.

Lemma is_open_other_after_close (c c' : Conn) (l : list Conn) :
  c' <> c ->
  existsb (Nat.eqb c') (filter (fun x => negb (Nat.eqb c x)) l) =
  existsb (Nat.eqb c') l.
Proof.
  intros Hne. induction l as [|x l IH]; [reflexivity |]. simpl.
  destruct (Nat.eqb c x) eqn:E; simpl.
  - apply Nat.eqb_eq in E. subst x.
    destruct (Nat.eqb c' c) eqn:E'; [apply Nat.eqb_eq in E'; contradiction |].
    exact IH.
  - now rewrite IH.
Qed.

(** [Close] on a logger that holds no socket panics, before anything
    happens.  On a logger that holds one it returns normally, whether
    the socket was open or already closed: the socket is closed
    afterwards, the answer of the socket is dropped, every other socket
    is as it was, and the logger still holds the handle. *)
Theorem Close_edge_cases :
  (forall sdl w, conn sdl = None -> Close sdl w = Crash NilDereference w)
  /\ (forall sdl c w,
         conn sdl = Some c ->
         exists w',
           Close sdl w = Done tt w' /\
           is_open c w' = false /\
           since w w' =
           [EvConnClose c
              (if is_open c w then None
               else Some (OpError "close" "use of closed network connection"))]
           /\ (forall c', c' <> c -> is_open c' w' = is_open c' w)).
Proof.
  split.
  - intros sdl w Hc. unfold Close. now rewrite Hc.
  - intros sdl c w Hc. unfold Close, bind, net.Close. rewrite Hc.
    destruct (is_open c w) eqn:Ho.
    + eexists. split; [reflexivity |]. split; [apply is_open_after_close |].
      split; [now apply since_app |].
      intros c' Hne. now apply is_open_other_after_close.
    + eexists. split; [reflexivity |]. split; [exact Ho |].
      split; [now apply since_app | reflexivity].
Qed.

Lemma Close_edge_cases_witness :
  Close unconnected_logger example_world =
  Crash NilDereference example_world.
Proof.
  apply (proj1 Close_edge_cases unconnected_logger example_world).
  reflexivity.
Defined.

(** ** The mutex and the debug line *)

(** Every call of [writeRetry], whichever way it ends, locks first,
    unlocks last, and touches the mutex nowhere in between. *)
Theorem writeRetry_lock_discipline :
  forall sdl s m w,
    exists sdl' r w' mid,
      writeRetry sdl s m w = Done (sdl', r) w' /\
      since w w' = (EvLock :: mid ++ [EvUnlock])%list /\
      existsb is_mutex_event mid = false.
Proof.
  intros sdl s m w. by_run sdl w.
  - rewrite (writeRetry_eq_connected sdl c s m w Hc).
    eexists _, _, _, [_; _]. split; [reflexivity |].
    split; [apply since_app; simpl; now rewrite <- !app_assoc | reflexivity].
  - rewrite (writeRetry_eq_down sdl s m w reason Hc He).
    eexists _, _, _, [_]. split; [reflexivity |].
    split; [apply since_app; simpl; now rewrite <- !app_assoc | reflexivity].
  - rewrite (writeRetry_eq_reconnect sdl s m w Hc He).
    eexists _, _, _, [_; _; _]. split; [reflexivity |].
    split; [apply since_app; simpl; now rewrite <- !app_assoc | reflexivity].
Qed.

(** Every frame costs one line on standard output: a call prints
    "prefix: ", the prefix and a line feed once for each frame it
    emits, and a call that returns an error prints nothing. *)
Theorem writeRetry_debug_line :
  forall sdl s m w sdl' r w',
    writeRetry sdl s m w = Done (sdl', r) w' ->
    stdout_of (since w w') =
    map (fun _ => "prefix: " ++ prefix sdl ++ LF) (frames (since w w'))
    /\ (snd r <> None -> stdout_of (since w w') = []).
Proof.
  intros sdl s m w sdl' r w' H. by_shape H; simpl.
  - split; [reflexivity | intros E; now elim E].
  - split; reflexivity.
  - split; [reflexivity | intros E; now elim E].
Qed.

Lemma writeRetry_debug_line_witness :
  stdout_of (since example_world
                   (world_after (writeRetry example_logger LOG_INFO "hello"
                                            example_world)))
  = ["prefix: [app] " ++ LF].
Proof.
  apply (writeRetry_debug_line
           example_logger LOG_INFO "hello" example_world
           example_logger (5, None)
           (world_after (writeRetry example_logger LOG_INFO "hello"
                                    example_world))).
  reflexivity.
Defined.

(** ** Bytes counted and bytes sent *)

(** The count a successful call returns is the length of the message,
    not of what went out: the frame is longer by the tag, the space, the
    prefix and, when one was added, the line feed. *)
Theorem count_versus_bytes_sent :
  forall sdl s m w sdl' n w',
    writeRetry sdl s m w = Done (sdl', (n, None)) w' ->
    exists f,
      frames (since w w') = [f] /\
      String.length f =
      String.length s + 1 + String.length (prefix sdl) + n
      + (if strings.HasSuffix m LF then 0 else 1)
      /\ n < String.length f.
Proof.
  intros sdl s m w sdl' n w' H.
  assert (L : String.length (wire_frame sdl s m) =
              String.length s + 1 + String.length (prefix sdl)
              + String.length m
              + (if strings.HasSuffix m LF then 0 else 1)).
  { unfold wire_frame. rewrite !length_append.
    destruct (strings.HasSuffix m LF); simpl; lia. }
  by_shape H; (eexists; split; [reflexivity |]; split; [exact L | lia]).
Qed.

Lemma count_versus_bytes_sent_witness :
  exists f,
    frames (since example_world
                  (world_after (writeRetry example_logger LOG_INFO "hello"
                                           example_world))) = [f] /\
    String.length f = 3 + 1 + 6 + 5 + 1 /\
    5 < String.length f.
Proof.
  apply (count_versus_bytes_sent
           example_logger LOG_INFO "hello" example_world example_logger 5
           (world_after (writeRetry example_logger LOG_INFO "hello"
                                    example_world))).
  reflexivity.
Defined.

(** ** Sequences of calls *)

Lemma frames_app (t u : list Event) :
  frames (t ++ u) = (frames t ++ frames u)%list.
Proof. unfold frames. apply flat_map_app. Qed.

Lemma stdout_of_app (t u : list Event) :
  stdout_of (t ++ u) = (stdout_of t ++ stdout_of u)%list.
Proof. unfold stdout_of. apply flat_map_app. Qed.

Lemma dial_attempts_app (t u : list Event) :
  dial_attempts (t ++ u) = dial_attempts t + dial_attempts u.
Proof. unfold dial_attempts. now rewrite filter_app, length_app. Qed.

(** A world whose trace continues that of [w] by [evs]. *)
Lemma trace_since (w w' : World) (evs : list Event) :
  trace w' = (trace w ++ evs)%list ->
  trace w' = (trace w ++ since w w')%list /\ since w w' = evs.
Proof. intros H. rewrite (since_app w w' evs H). now split. Qed.

Lemma since_trans (w w1 w2 : World) :
  trace w1 = (trace w ++ since w w1)%list ->
  trace w2 = (trace w1 ++ since w1 w2)%list ->
  trace w2 = (trace w ++ since w w2)%list /\
  since w w2 = (since w w1 ++ since w1 w2)%list.
Proof.
  intros H1 H2. apply trace_since. rewrite H2, H1 at 1.
  now rewrite <- app_assoc.
Qed.

(** Every call but [Close] is [writeRetry] at some severity on some
    message, its results dropped; that message makes the call's frame. *)
Lemma run_op_logging {F : Formatter} (sdl : Sysdlog) (o : Op) :
  is_Close o = false ->
  exists s m,
    (forall sdl0, op_frames sdl0 o = [wire_frame sdl0 s m]) /\
    (forall w,
        run_op sdl o w =
        match writeRetry sdl s m w with
        | Done (sdl', _) w' => Done sdl' w'
        | Crash f w' => Crash f w'
        end).
Proof.
  intros Ho.
  destruct o; try discriminate; eexists _, _;
    (split; [intros sdl0; reflexivity |]);
    intros w; simpl run_op;
    unfold Write, Emerg, Alert, Crit, Err, Warning, Notice, Info, Debug,
      Emergf, Alertf, Critf, Errf, Warningf, Noticef, Infof, Debugf, bind;
    match goal with
    | |- context [writeRetry ?l ?s ?x w] =>
        destruct (writeRetry l s x w) as [[sdl1 [n e]] w1 | f w1]
    end; reflexivity.
Qed.

(** Settle a goal about the events of an explicit world by naming them. *)
Ltac known_trace evs :=
  match goal with
  | |- trace ?w' = (trace ?w ++ since ?w ?w')%list /\ _ =>
      let S := fresh "S" in
      assert (S : trace w' = (trace w ++ evs)%list)
        by (simpl; rewrite <- ?app_assoc, ?app_nil_r; reflexivity);
      rewrite (since_app w w' evs S); split; [exact S |]
  end.

(** One call on a logger that holds a socket. *)
Lemma run_op_connected_trace {F : Formatter} sdl c o w :
  conn sdl = Some c ->
  exists w',
    run_op sdl o w = Done sdl w' /\
    trace w' = (trace w ++ since w w')%list /\
    dial_attempts (since w w') = 0 /\
    frames (since w w') = op_frames sdl o.
Proof.
  intros Hc. destruct (is_Close o) eqn:Ho.
  - destruct o; try discriminate. simpl run_op.
    unfold Close, bind, net.Close. rewrite Hc.
    destruct (is_open c w); eexists; (split; [reflexivity |]).
    + known_trace [EvConnClose c None]. split; reflexivity.
    + known_trace
        [EvConnClose c
           (Some (OpError "close" "use of closed network connection"))].
      split; reflexivity.
  - destruct (run_op_logging sdl o Ho) as (s & m & Hf & Hrun).
    rewrite Hrun, Hf, (writeRetry_eq_connected sdl c s m w Hc).
    eexists. split; [reflexivity |].
    known_trace [EvLock; EvStdout (debug_line sdl);
                 EvConnWrite c (wire_frame sdl s m) (write_fate c w);
                 EvUnlock].
    split; reflexivity.
Qed.

Lemma run_ops_connected_trace {F : Formatter} sdl c os :
  conn sdl = Some c ->
  forall w,
  exists w',
    run_ops sdl os w = Done sdl w' /\
    trace w' = (trace w ++ since w w')%list /\
    dial_attempts (since w w') = 0 /\
    frames (since w w') = flat_map (op_frames sdl) os.
Proof.
  intros Hc. induction os as [|o os IH]; intros w; simpl.
  - exists w. split; [reflexivity |].
    known_trace (@nil Event). split; reflexivity.
  - unfold bind.
    destruct (run_op_connected_trace sdl c o w Hc)
      as (w1 & -> & T1 & D1 & F1).
    destruct (IH w1) as (w2 & -> & T2 & D2 & F2).
    exists w2. split; [reflexivity |].
    destruct (since_trans w w1 w2 T1 T2) as [T S].
    split; [exact T |].
    rewrite S, dial_attempts_app, frames_app, D1, D2, F1, F2.
    split; reflexivity.
Qed.

(** On a logger that holds a socket, any sequence of exported calls
    runs to its end without a single dial and leaves the logger as it
    was; the frames go out one for each logging call, in the order of
    the calls, [Close] or no [Close] in between. *)
Theorem connected_logger_never_dials :
  forall (F : Formatter) sdl c os w,
    conn sdl = Some c ->
    exists w',
      run_ops sdl os w = Done sdl w' /\
      dial_attempts (since w w') = 0 /\
      frames (since w w') = flat_map (op_frames sdl) os.
Proof.
  intros F sdl c os w Hc.
  destruct (run_ops_connected_trace sdl c os Hc w) as (w' & R & _ & D & Fr).
  exists w'. repeat split; assumption.
Qed.

Lemma connected_logger_never_dials_witness :
  exists w',
    @run_ops string_formatter example_logger example_calls example_world
    = Done example_logger w' /\
    dial_attempts (since example_world w') = 0 /\
    frames (since example_world w') =
    ["<6> [app] hello" ++ LF; "<3> [app] disk!" ++ LF;
     "<3> [app] hi" ++ LF; "<7> [app] bye" ++ LF].
Proof.
  apply (connected_logger_never_dials
           string_formatter example_logger 0 example_calls example_world).
  reflexivity.
Defined.

(** One logging call on a logger that holds no socket, daemon down. *)
Lemma run_op_down_trace {F : Formatter} sdl o w reason :
  conn sdl = None ->
  endpoint w (dials w) = Some reason ->
  is_Close o = false ->
  exists w',
    run_op sdl o w = Done sdl w' /\
    trace w' = (trace w ++ since w w')%list /\
    endpoint w' = endpoint w /\
    dial_attempts (since w w') = 1 /\
    frames (since w w') = [] /\
    stdout_of (since w w') = [].
Proof.
  intros Hc He Ho.
  destruct (run_op_logging sdl o Ho) as (s & m & _ & Hrun).
  rewrite Hrun, (writeRetry_eq_down sdl s m w reason Hc He).
  eexists. split; [reflexivity |].
  known_trace [EvLock;
               EvDial "unixgram" "/dev/log" (Some (OpError "dial" reason));
               EvUnlock].
  repeat split.
Qed.

(** While the daemon cannot be reached, a logger that holds no socket
    stays as it is through any sequence of logging calls: each call
    dials once, and nothing is written to a socket or to standard
    output. *)
Theorem unconnected_logger_during_outage :
  forall (F : Formatter) sdl os w,
    conn sdl = None ->
    (forall k, endpoint w k <> None) ->
    forallb (fun o => negb (is_Close o)) os = true ->
    exists w',
      run_ops sdl os w = Done sdl w' /\
      dial_attempts (since w w') = List.length os /\
      frames (since w w') = [] /\
      stdout_of (since w w') = [].
Proof.
  intros F sdl os w Hc Hdown Hos.
  enough (exists w',
             run_ops sdl os w = Done sdl w' /\
             trace w' = (trace w ++ since w w')%list /\
             dial_attempts (since w w') = List.length os /\
             frames (since w w') = [] /\
             stdout_of (since w w') = [])
    as (w' & R & _ & D & Fr & So) by (exists w'; repeat split; assumption).
  revert w Hdown. induction os as [|o os IH]; intros w Hdown; simpl.
  - exists w. split; [reflexivity |].
    known_trace (@nil Event). repeat split.
  - simpl in Hos. apply andb_prop in Hos. destruct Hos as [Ho Hos].
    apply negb_true_iff in Ho.
    destruct (endpoint w (dials w)) as [reason|] eqn:He;
      [| now elim (Hdown (dials w))].
    unfold bind.
    destruct (run_op_down_trace sdl o w reason Hc He Ho)
      as (w1 & -> & T1 & E1 & D1 & F1 & S1).
    destruct (IH Hos w1) as (w2 & -> & T2 & D2 & F2 & S2).
    { intros k. rewrite E1. apply Hdown. }
    exists w2. split; [reflexivity |].
    destruct (since_trans w w1 w2 T1 T2) as [T S].
    split; [exact T |].
    rewrite S, dial_attempts_app, frames_app, stdout_of_app,
      D1, D2, F1, F2, S1, S2.
    repeat split.
Qed.

Lemma unconnected_logger_during_outage_witness :
  exists w',
    @run_ops string_formatter unconnected_logger example_logging_calls
             (fresh_world (always_down "connection refused") always_up)
    = Done unconnected_logger w' /\
    dial_attempts
      (since (fresh_world (always_down "connection refused") always_up) w')
    = 3 /\
    frames
      (since (fresh_world (always_down "connection refused") always_up) w')
    = [] /\
    stdout_of
      (since (fresh_world (always_down "connection refused") always_up) w')
    = [].
Proof.
  apply (unconnected_logger_during_outage
           string_formatter unconnected_logger example_logging_calls
           (fresh_world (always_down "connection refused") always_up)).
  - reflexivity.
  - intros k. discriminate.
  - reflexivity.
Defined.

(** A logger that holds no socket connects on its first logging call
    when the daemon is up, and that is the only dial of the whole
    sequence: the socket it stored serves every later call, and every
    logging call, the first included, gets its frame out. *)
Theorem unconnected_logger_connects_once :
  forall (F : Formatter) sdl o os w,
    conn sdl = None ->
    endpoint w (dials w) = None ->
    is_Close o = false ->
    exists w',
      run_ops sdl (o :: os) w =
      Done (mkSysdlog (prefix sdl) (Some (dials w))) w' /\
      dial_attempts (since w w') = 1 /\
      frames (since w w') = flat_map (op_frames sdl) (o :: os).
Proof.
  intros F sdl o os w Hc He Ho. simpl run_ops. unfold bind.
  destruct (run_op_logging sdl o Ho) as (s & m & Hf & Hrun).
  rewrite Hrun, (writeRetry_eq_reconnect sdl s m w Hc He).
  match goal with
  | |- context [run_ops ?sdl1 os ?w1] =>
      destruct (run_ops_connected_trace sdl1 (dials w) os eq_refl w1)
        as (w2 & -> & T2 & D2 & F2);
      assert (T1 : trace w1 =
                   (trace w ++
                    [EvLock; EvDial "unixgram" "/dev/log" None;
                     EvStdout (debug_line sdl);
                     EvConnWrite (dials w) (wire_frame sdl s m)
                       (option_map (OpError "write") (wire w (sends w)));
                     EvUnlock])%list)
        by (simpl; rewrite <- ?app_assoc; reflexivity);
      destruct (trace_since w w1 _ T1) as [T1' S1];
      destruct (since_trans w w1 w2 T1' T2) as [_ S]
  end.
  exists w2. split; [reflexivity |].
  rewrite S, S1, dial_attempts_app, frames_app, D2, F2. simpl flat_map.
  rewrite Hf. split; reflexivity.
Qed.

Lemma unconnected_logger_connects_once_witness :
  exists w',
    @run_ops string_formatter unconnected_logger example_logging_calls
             (fresh_world always_up always_up)
    = Done example_logger w' /\
    dial_attempts (since (fresh_world always_up always_up) w') = 1 /\
    frames (since (fresh_world always_up always_up) w') =
    ["<6> [app] hello" ++ LF; "<3> [app] disk!" ++ LF; "<3> [app] hi" ++ LF].
Proof.
  apply (unconnected_logger_connects_once
           string_formatter unconnected_logger
           (@CallInfo string_formatter "hello")
           [@CallErrf string_formatter "%s!" ["disk"];
            @CallWrite string_formatter [x68; x69]%byte]
           (fresh_world always_up always_up));
    reflexivity.
Defined.

(** ** Reading a frame back *)

Lemma substring_skip (a b : string) (n : nat) :
  substring (String.length a) n (a ++ b) = substring 0 n b.
Proof. induction a as [|x a IH]; simpl; [reflexivity | exact IH]. Qed.

Lemma substring_none (s : string) : substring 0 0 s = "".
Proof. destruct s; reflexivity. Qed.

Lemma wire_frame_fields (sdl : Sysdlog) (s : Severity) (m : string) :
  In s severities ->
  substring 0 3 (wire_frame sdl s m) = s /\
  substring 3 1 (wire_frame sdl s m) = " " /\
  substring 4 (String.length (prefix sdl)) (wire_frame sdl s m) = prefix sdl /\
  substring (4 + String.length (prefix sdl)) (String.length m)
            (wire_frame sdl s m) = m.
Proof.
  intros Hs. unfold wire_frame. simpl in Hs.
  repeat (destruct Hs as [<- | Hs]); try contradiction;
    (split; [simpl; rewrite ?substring_none; reflexivity |];
     split; [simpl; rewrite ?substring_none; reflexivity |];
     split;
     [ apply (substring_whole_prefix (prefix sdl))
     | simpl; rewrite substring_skip; apply substring_whole_prefix ]).
Qed.

(** The tag, the space, the prefix and the message sit in every frame
    at fixed places, so a reader who knows the prefix reads the severity
    and the message back, whatever bytes the message holds (a tag of its
    own at its start included). *)
Theorem frame_fields_can_be_read_back :
  forall sdl s m w sdl' n w' f,
    In s severities ->
    writeRetry sdl s m w = Done (sdl', (n, None)) w' ->
    In f (frames (since w w')) ->
    substring 0 3 f = s /\
    substring 3 1 f = " " /\
    substring 4 (String.length (prefix sdl)) f = prefix sdl /\
    substring (4 + String.length (prefix sdl)) n f = m.
Proof.
  intros sdl s m w sdl' n w' f Hs H Hin.
  apply writeRetry_inv in H. destruct H as (evs & Hev & Hshape).
  rewrite Hev in Hin.
  rewrite (emitted_frame _ _ _ _ _ _ _ _ Hshape Hin).
  replace n with (String.length m) by (inversion Hshape; reflexivity).
  now apply wire_frame_fields.
Qed.

Lemma frame_fields_can_be_read_back_witness :
  substring 0 3 ("<6> [app] <0> hello" ++ LF) = LOG_INFO /\
  substring 3 1 ("<6> [app] <0> hello" ++ LF) = " " /\
  substring 4 6 ("<6> [app] <0> hello" ++ LF) = "[app] " /\
  substring (4 + 6) 9 ("<6> [app] <0> hello" ++ LF) = "<0> hello".
Proof.
  apply (frame_fields_can_be_read_back
           example_logger LOG_INFO "<0> hello" example_world
           example_logger 9
           (world_after (writeRetry example_logger LOG_INFO "<0> hello"
                                    example_world))
           ("<6> [app] <0> hello" ++ LF)).
  - right. right. right. right. right. right. left. reflexivity.
  - reflexivity.
  - left. reflexivity.
Defined.

(** ** [connect] and [NewLogger] *)





(** ** After [Close] *)

(** One call on a logger whose socket is closed. *)
Lemma run_op_closed_trace {F : Formatter} sdl c o w :
  conn sdl = Some c ->
  is_open c w = false ->
  exists w',
    run_op sdl o w = Done sdl w' /\
    trace w' = (trace w ++ since w w')%list /\
    is_open c w' = false /\
    existsb is_delivered (since w w') = false.
Proof.
  intros Hc Ho. destruct (is_Close o) eqn:Hk.
  - destruct o; try discriminate. simpl run_op.
    unfold Close, bind, net.Close. rewrite Hc, Ho.
    eexists. split; [reflexivity |].
    known_trace
      [EvConnClose c
         (Some (OpError "close" "use of closed network connection"))].
    split; [exact Ho | reflexivity].
  - destruct (run_op_logging sdl o Hk) as (s & m & _ & Hrun).
    rewrite Hrun, (writeRetry_eq_connected sdl c s m w Hc).
    eexists. split; [reflexivity |].
    known_trace [EvLock; EvStdout (debug_line sdl);
                 EvConnWrite c (wire_frame sdl s m) (write_fate c w);
                 EvUnlock].
    split; [exact Ho |].
    unfold write_fate. rewrite Ho. reflexivity.
Qed.

(** [Close] is final.  Once the stored socket is closed no exported
    call opens it again or dials for another: through any sequence of
    calls the logger keeps the dead handle, every call still returns,
    and no frame is taken by a socket. *)
Theorem closed_logger_stays_closed :
  forall (F : Formatter) sdl c os w,
    conn sdl = Some c ->
    is_open c w = false ->
    exists w',
      run_ops sdl os w = Done sdl w' /\
      is_open c w' = false /\
      existsb is_delivered (since w w') = false /\
      dial_attempts (since w w') = 0.
Proof.
  intros F sdl c os w Hc Ho.
  destruct (run_ops_connected_trace sdl c os Hc w) as (w0 & R0 & _ & D0 & _).
  enough (exists w',
             run_ops sdl os w = Done sdl w' /\
             trace w' = (trace w ++ since w w')%list /\
             is_open c w' = false /\
             existsb is_delivered (since w w') = false)
    as (w' & R & _ & O & E).
  { exists w'. rewrite R in R0. injection R0 as <-.
    repeat split; assumption. }
  clear w0 R0 D0. revert w Ho.
  induction os as [|o os IH]; intros w Ho; simpl.
  - exists w. split; [reflexivity |].
    known_trace (@nil Event). split; [exact Ho | reflexivity].
  - unfold bind.
    destruct (run_op_closed_trace sdl c o w Hc Ho)
      as (w1 & -> & T1 & O1 & E1).
    destruct (IH w1 O1) as (w2 & -> & T2 & O2 & E2).
    exists w2. split; [reflexivity |].
    destruct (since_trans w w1 w2 T1 T2) as [T S].
    split; [exact T |]. split; [exact O2 |].
    now rewrite S, existsb_app, E1, E2.
Qed.

Lemma closed_logger_stays_closed_witness :
  exists w',
    @run_ops string_formatter example_logger example_logging_calls
             (world_after (Close example_logger example_world))
    = Done example_logger w' /\
    is_open 0 w' = false /\
    existsb is_delivered
            (since (world_after (Close example_logger example_world)) w')
    = false /\
    dial_attempts
      (since (world_after (Close example_logger example_world)) w') = 0.
Proof.
  apply (closed_logger_stays_closed
           string_formatter example_logger 0 example_logging_calls
           (world_after (Close example_logger example_world)));
    reflexivity.
Defined.
